(** * Shallow embedding of the exploration control loop of cam_exploration

    Source: src/src/cam_exploration.cpp.

    The node is modelled as follows.
    - The globals [fmap] (frontier list), [goal_selector] (pointer to the
      active strategy) and the locals [first_time], [exploration_finished]
      of [spin] form the [loop_state].  The pointer [goal_selector] is an
      [option]: [None] is the zero-initialised (null) global.
    - The collaborators that are not part of this file (RobotMotion,
      replan::Replaner, the goal-selector strategy, MapServer) are inputs:
      every iteration of the [while (ros::ok())] loop reads one [env] record
      holding what [robot.refreshPose()], [replaner.replan()] and
      [robot.isMoving()] return on that iteration, and the frontier map the
      map callback delivers during [ros::spinOnce()], if any.
    - The strategy's [decideGoal(frontier, goal)] is a function of its
      internal state, the frontier and the in-out [goal] argument, returning
      the verdict, the new [goal] and the new internal state.
    - Undefined behaviour (dereferencing [fmap.end()] or a null
      [goal_selector]) stops the run with the outcome [Undef]. *)

From Stdlib Require Import List Bool String Arith Lia.
Import ListNotations.
Open Scope string_scope.

Set Implicit Arguments.

Section Loop.

(** Frontier (opaque points), pose, and internal state of the strategy. *)
Variable Frontier Pose GS : Type.

(** [geometry_msgs::Pose goal;]: the default-constructed pose. *)
Variable default_pose : Pose.

(** [goal_selector->decideGoal( *f_it, goal)] *)
Variable decideGoal_gs : GS -> Frontier -> Pose -> bool * Pose * GS.

(** [new midPoint()]: the initial state of the "mid_point" strategy. *)
Variable midPoint : GS.

(** Observable effects of the node. *)
Inductive event : Type :=
| EvError (msg : string)          (* ROS_ERROR *)
| EvRefreshPose (ok : bool)       (* robot.refreshPose() and its result *)
| EvWarn                          (* ROS_WARN("Couldn't get robot position!") *)
| EvReplan (verdict : bool)       (* replaner.replan() and its result *)
| EvScan                          (* entry of decideGoal() *)
| EvDecide (f : Frontier)         (* goal_selector->decideGoal on frontier f *)
| EvGoTo (goal : Pose)            (* robot.goTo(goal) *)
| EvCancel                        (* robot.cancelGoal() *)
| EvShutdown.                     (* ros::shutdown() *)

(** What the collaborators answer during one loop iteration. *)
Record env : Type := mkEnv {
  pose_ok : bool;                     (* robot.refreshPose() *)
  replan_verdict : bool;              (* replaner.replan() *)
  is_moving : bool;                   (* robot.isMoving() *)
  map_update : option (list Frontier) (* map delivered in ros::spinOnce() *)
}.

Record loop_state : Type := mkState {
  first_time : bool;
  exploration_finished : bool;
  map_received : bool;                (* MapServer's received flag *)
  fmap : list Frontier;
  goal_selector : option GS;
  ros_ok : bool
}.

Definition set_first_time (b : bool) (st : loop_state) : loop_state :=
  mkState b (exploration_finished st) (map_received st) (fmap st)
          (goal_selector st) (ros_ok st).

Definition set_goal_selector (g : GS) (st : loop_state) : loop_state :=
  mkState (first_time st) (exploration_finished st) (map_received st)
          (fmap st) (Some g) (ros_ok st).

Definition set_ros_ok (b : bool) (st : loop_state) : loop_state :=
  mkState (first_time st) (exploration_finished st) (map_received st)
          (fmap st) (goal_selector st) b.

(** Modelled from the spec: [MapServer::mapReceived()] (MapServer is not
    part of src/).  The spec's WaitingForMap -> Exploring transition fires
    on the first tick where at least one map update has been received, and
    is never undone: the flag records that a map has been received. *)
Definition mapReceived (st : loop_state) : bool := map_received st.

(** Modelled from the spec: [MapServer::setMapReceived()]; marks the map as
    received, which keeps the loop in Exploring. *)
Definition setMapReceived (st : loop_state) : loop_state :=
  mkState (first_time st) (exploration_finished st) true (fmap st)
          (goal_selector st) (ros_ok st).

(** Modelled from the spec: the MapServer map callback, which replaces the
    frontier set wholesale through [getFrontiers] and records that a map has
    been received.  [getFrontiers(f_in)] itself is [fmap = f_in]. *)
Definition getFrontiers (f_in : list Frontier) (st : loop_state) : loop_state :=
  mkState (first_time st) (exploration_finished st) true f_in
          (goal_selector st) (ros_ok st).

(** Result of the [while(!goal_selector->decideGoal( *f_it, goal)) f_it++;]
    scan: the frontiers evaluated, in order, then either the accepted
    frontier with the goal and the strategy's new state, or the iterator
    walking past [fmap.end()] (undefined behaviour). *)
Inductive scan_result : Type :=
| Accepted (evaluated : list Frontier) (f : Frontier) (goal : Pose) (gs : GS)
| RanOffEnd (evaluated : list Frontier).

Fixpoint scan (gs : GS) (fs : list Frontier) (goal : Pose) : scan_result :=
  match fs with
  | [] => RanOffEnd []
  | f :: rest =>
      match decideGoal_gs gs f goal with
      | (true, goal', gs') => Accepted [f] f goal' gs'
      | (false, goal', gs') =>
          match scan gs' rest goal' with
          | Accepted ev f2 g gs2 => Accepted (f :: ev) f2 g gs2
          | RanOffEnd ev => RanOffEnd (f :: ev)
          end
      end
  end.

(** Outcome of [decideGoal()]. *)
Inductive dg_outcome : Type :=
| DGGoal (evaluated : list Frontier) (f : Frontier) (goal : Pose) (gs : GS)
| DGUndef (evaluated : list Frontier).

(** [decideGoal()]: reads the globals [fmap] and [goal_selector] and starts
    from a default-constructed [goal].  A null [goal_selector] or a scan
    past the end of [fmap] is undefined behaviour. *)
Definition decideGoal (st : loop_state) : dg_outcome :=
  match goal_selector st with
  | None => DGUndef []
  | Some gs =>
      match scan gs (fmap st) default_pose with
      | Accepted ev f g gs' => DGGoal ev f g gs'
      | RanOffEnd ev => DGUndef ev
      end
  end.

(** Outcome of running a piece of the node: the new state and the effects,
    or undefined behaviour after some effects. *)
Inductive outcome : Type :=
| Ok (st : loop_state) (evs : list event)
| Undef (evs : list event).

Definition events_of (o : outcome) : list event :=
  match o with Ok _ evs => evs | Undef evs => evs end.

(** [finish()]: cancel the goal if the robot moves, then [ros::shutdown()]. *)
Definition finish (e : env) (st : loop_state) : outcome :=
  Ok (set_ros_ok false st)
     ((if is_moving e then [EvCancel] else []) ++ [EvShutdown]).

(** The body of [while (ros::ok())] up to [ros::spinOnce()]. *)
Definition tick (e : env) (st : loop_state) : outcome :=
  if mapReceived st then
    let st := setMapReceived st in
    if exploration_finished st then finish e st
    else if pose_ok e then
      let v := replan_verdict e in
      if v || first_time st then
        let st := if first_time st then set_first_time false st else st in
        let pre := [EvRefreshPose true; EvReplan v; EvScan] in
        match decideGoal st with
        | DGGoal ev _ g gs' =>
            Ok (set_goal_selector gs' st) (pre ++ map EvDecide ev ++ [EvGoTo g])
        | DGUndef ev => Undef (pre ++ map EvDecide ev)
        end
      else Ok st [EvRefreshPose true; EvReplan v]
    else Ok st [EvRefreshPose false; EvWarn]
  else Ok st [].

(** [ros::spinOnce()]: deliver the pending map, if the node still runs. *)
Definition spinOnce (e : env) (st : loop_state) : loop_state :=
  if ros_ok st then
    match map_update e with
    | Some fs => getFrontiers fs st
    | None => st
    end
  else st.

(** One iteration of the loop: tick, then [ros::spinOnce()]
    ([loop_rate.sleep()] has no effect on the state). *)
Definition step (e : env) (st : loop_state) : outcome :=
  match tick e st with
  | Ok st' evs => Ok (spinOnce e st') evs
  | Undef evs => Undef evs
  end.

(** [while (ros::ok()) { ... }] over a list of iterations: the log pairs
    each executed iteration with its effects; the final state is [None]
    after undefined behaviour. *)
Fixpoint run (envs : list env) (st : loop_state)
  : list (env * list event) * option loop_state :=
  match envs with
  | [] => ([], Some st)
  | e :: es =>
      if ros_ok st then
        match step e st with
        | Ok st' evs =>
            let '(log, fin) := run es st' in ((e, evs) :: log, fin)
        | Undef evs => ([(e, evs)], None)
        end
      else ([], Some st)
  end.

(** The "decideGoal setup" block of [spin()]. *)
Definition select_goal_selector (param : option string)
  : option GS * list event :=
  match param with
  | Some g_selector_name =>
      if String.eqb g_selector_name "mid_point" then (Some midPoint, [])
      else (None, [EvError ("String " ++ g_selector_name
                             ++ " does not name a valid goal selector")])
  | None => (None, [EvError "Parameter goal_selector has not been configured"])
  end.

(** State when entering the loop: [first_time = true],
    [exploration_finished = false], no map yet, empty [fmap]. *)
Definition init_state (sel : option GS) : loop_state :=
  mkState true false false [] sel true.

(** [spin()]: the startup configuration, then the main loop. *)
Definition spin (param : option string) (envs : list env)
  : list event * (list (env * list event) * option loop_state) :=
  let '(sel, errs) := select_goal_selector param in
  (errs, run envs (init_state sel)).

End Loop.

Close Scope string_scope.

Arguments EvError {Frontier Pose} msg.
Arguments EvRefreshPose {Frontier Pose} ok.
Arguments EvWarn {Frontier Pose}.
Arguments EvReplan {Frontier Pose} verdict.
Arguments EvScan {Frontier Pose}.
Arguments EvDecide {Frontier Pose} f.
Arguments EvGoTo {Frontier Pose} goal.
Arguments EvCancel {Frontier Pose}.
Arguments EvShutdown {Frontier Pose}.
Arguments RanOffEnd {Frontier Pose GS} evaluated.
Arguments DGUndef {Frontier Pose GS} evaluated.
Arguments Undef {Frontier Pose GS} evs.

(** The replanning-cause setup of [spin()]:
    [n_replan.getParam("conditions", replan_conditions)] (a missing
    parameter leaves the vector empty), then, for every name in order,
    [replaner.addCause(name, parameters)] when
    [n_replan.getParam(name, parameters)] finds a parameter map, and
    [replaner.addCause(name)] otherwise. *)
Inductive cause_call : Type :=
| AddCauseParams (name : string) (parameters : list (string * string))
| AddCause (name : string).

Definition cause_name (c : cause_call) : string :=
  match c with AddCauseParams n _ => n | AddCause n => n end.

Fixpoint add_causes (get_params : string -> option (list (string * string)))
    (conds : list string) : list cause_call :=
  match conds with
  | [] => []
  | name :: rest =>
      match get_params name with
      | Some parameters => AddCauseParams name parameters
      | None => AddCause name
      end :: add_causes get_params rest
  end.

Definition setup_replaner (conditions : option (list string))
    (get_params : string -> option (list (string * string))) : list cause_call :=
  let replan_conditions := match conditions with Some l => l | None => [] end in
  add_causes get_params replan_conditions.

(** The frontier map the loop holds after a sequence of iterations in which
    [getFrontiers] is called with every delivered map. *)
Definition last_map {Frontier : Type} (envs : list (env Frontier))
    (fm : list Frontier) : list Frontier :=
  fold_left (fun acc e => match map_update e with Some fs => fs | None => acc end)
            envs fm.

(** A concrete instance used to run the model: frontiers and poses are
    numbers, the strategy accepts the frontiers selected by [accept], derives
    the goal [10 * f] from an accepted frontier, leaves [goal] untouched on a
    rejection, and counts its calls in its internal state. *)
Module Demo.

Definition decide (accept : nat -> bool) (calls : nat) (f : nat) (goal : nat)
  : bool * nat * nat :=
  if accept f then (true, 10 * f, S calls) else (false, goal, S calls).

Definition only (k : nat) : nat -> bool := Nat.eqb k.

Definition env_of (pose_ok replan moving : bool) (upd : option (list nat))
  : env nat := mkEnv pose_ok replan moving upd.

(** Exploring, bootstrap pending, strategy state [0]. *)
Definition exploring (fs : list nat) : loop_state nat nat :=
  mkState true false true fs (Some 0) true.

End Demo.

Unset Implicit Arguments.

(** Number of [robot.cancelGoal()] calls in a list of effects. *)
Fixpoint count_cancel {Frontier Pose : Type} (evs : list (event Frontier Pose)) : nat :=
  match evs with
  | [] => 0
  | EvCancel :: rest => S (count_cancel rest)
  | _ :: rest => count_cancel rest
  end.

(** The strategy rejects every frontier of [fs], threading its state and the
    in-out [goal]; the result is the final goal and state. *)
Fixpoint reject_all {Frontier Pose GS : Type}
    (decideGoal_gs : GS -> Frontier -> Pose -> bool * Pose * GS)
    (gs : GS) (fs : list Frontier) (goal : Pose) : option (Pose * GS) :=
  match fs with
  | [] => Some (goal, gs)
  | f :: rest =>
      match decideGoal_gs gs f goal with
      | (true, _, _) => None
      | (false, goal', gs') => reject_all decideGoal_gs gs' rest goal'
      end
  end.

Section Facts.

Context {Frontier Pose GS : Type} (default_pose : Pose)
        (decideGoal_gs : GS -> Frontier -> Pose -> bool * Pose * GS).

Local Abbreviation event := (event Frontier Pose).
Local Abbreviation env := (env Frontier).
Local Abbreviation loop_state := (loop_state Frontier GS).
Local Abbreviation outcome := (outcome Frontier Pose GS).
Local Abbreviation scan := (scan decideGoal_gs).
Local Abbreviation reject_all := (reject_all decideGoal_gs).
Local Abbreviation decideGoal := (decideGoal default_pose decideGoal_gs).
Local Abbreviation tick := (tick default_pose decideGoal_gs).
Local Abbreviation step := (step default_pose decideGoal_gs).
Local Abbreviation run := (run default_pose decideGoal_gs).

(** Scanning a prefix whose frontiers are all rejected, then the rest. *)
Lemma scan_app_rejected :
  forall pre gs goal goal1 gs1 post,
    reject_all gs pre goal = Some (goal1, gs1) ->
    scan gs (pre ++ post) goal =
      match scan gs1 post goal1 with
      | Accepted ev f g gs2 => Accepted (pre ++ ev) f g gs2
      | RanOffEnd ev => RanOffEnd (pre ++ ev)
      end.
Proof.
  induction pre as [|f pre IH]; intros gs goal goal1 gs1 post Hrej; simpl in *.
  - inversion Hrej; subst. destruct (scan gs1 post goal1); reflexivity.
  - destruct (decideGoal_gs gs f goal) as [[[|] goal'] gs'] eqn:Hd;
      [discriminate|].
    rewrite (IH _ _ _ _ post Hrej).
    destruct (scan gs1 post goal1); reflexivity.
Qed.

(** When every frontier is rejected the scan walks past the end. *)
Lemma scan_all_rejected :
  forall fs gs goal r, reject_all gs fs goal = Some r ->
    scan gs fs goal = RanOffEnd fs.
Proof.
  intros fs gs goal [goal1 gs1] H.
  rewrite <- (app_nil_r fs), (scan_app_rejected fs gs goal goal1 gs1 [] H).
  reflexivity.
Qed.

(** C6: the scan visits the frontiers in order and commits the goal of
    the first accepted frontier [f]: the frontiers evaluated are exactly
    [pre ++ [f]], so no frontier of [post] is evaluated, and the goal and
    the strategy's state are those [decideGoal] returned on [f]. *)
Theorem decideGoal_first_accepted :
  forall st gs pre f post goal1 gs1 goal2 gs2,
    goal_selector st = Some gs ->
    fmap st = pre ++ f :: post ->
    reject_all gs pre default_pose = Some (goal1, gs1) ->
    decideGoal_gs gs1 f goal1 = (true, goal2, gs2) ->
    decideGoal st = DGGoal (pre ++ [f]) f goal2 gs2.
Proof.
  intros st gs pre f post goal1 gs1 goal2 gs2 Hsel Hfm Hrej Hacc.
  unfold decideGoal. rewrite Hsel, Hfm.
  rewrite (scan_app_rejected pre gs default_pose goal1 gs1 (f :: post) Hrej).
  simpl. rewrite Hacc. reflexivity.
Qed.

(** C8: [decideGoal()] depends only on the frontier set and the strategy
    (pointer and internal state): two invocations against the same
    [fmap] and the same strategy state give the same result. *)
Theorem decideGoal_deterministic :
  forall st1 st2,
    fmap st1 = fmap st2 ->
    goal_selector st1 = goal_selector st2 ->
    decideGoal st1 = decideGoal st2.
Proof.
  intros st1 st2 Hf Hg. unfold decideGoal. rewrite Hf, Hg. reflexivity.
Qed.

(** C7: in Exploring, a tick on which [robot.refreshPose()] fails only
    warns: no dispatch, and the state (goal selector, frontier set,
    [first_time], [exploration_finished]) is unchanged. *)
Theorem tick_pose_failure_frame :
  forall e st,
    map_received st = true ->
    exploration_finished st = false ->
    pose_ok e = false ->
    tick e st = Ok st [EvRefreshPose false; EvWarn].
Proof.
  intros e [ft fin mr fm sel ok] e_mr e_fin e_pose; simpl in *; subst.
  unfold tick, mapReceived, setMapReceived; simpl. rewrite e_pose.
  reflexivity.
Qed.

(** Case analysis of one tick: the state's fields, the answers of the
    collaborators, and the outcome of [decideGoal()]. *)
Ltac tick_cases e st :=
  destruct st as [ft fin mr fm sel ok];
  unfold tick, mapReceived, setMapReceived, finish, set_first_time,
    set_goal_selector, set_ros_ok in *;
  cbn [first_time exploration_finished map_received fmap goal_selector ros_ok]
    in *;
  destruct mr, fin, (pose_ok e), (replan_verdict e), (is_moving e), ft;
    cbn in *;
  repeat match goal with
         | H : context [match decideGoal ?s with _ => _ end] |- _ =>
             destruct (decideGoal s)
         | |- context [match decideGoal ?s with _ => _ end] =>
             destruct (decideGoal s)
         end.

(** Membership in the effect lists a tick produces. *)
Ltac in_events :=
  repeat match goal with
         | H : In _ (_ ++ _) |- _ => apply in_app_or in H; destruct H
         | H : In _ (map _ _) |- _ =>
             apply in_map_iff in H; destruct H as [? [? ?]]
         | H : In _ (_ :: _) |- _ => destruct H
         | H : In _ [] |- _ => destruct H
         | H : _ \/ _ |- _ => destruct H
         | H : False |- _ => destruct H
         | H : EvGoTo _ = _ |- _ => discriminate H
         | H : _ = EvGoTo _ |- _ => discriminate H
         | H : @EvDecide _ _ _ = EvScan |- _ => discriminate H
         | H : EvDecide _ = _ |- _ => discriminate H
         end.

Lemma tick_pose_failure :
  forall e st,
    map_received st = true ->
    exploration_finished st = false ->
    pose_ok e = false ->
    tick e st = Ok st [EvRefreshPose false; EvWarn].
Proof.
  intros e [ft fin mr fm sel ok] e_mr e_fin e_pose; simpl in *; subst.
  unfold tick, mapReceived, setMapReceived; simpl. rewrite e_pose.
  reflexivity.
Qed.

(** In Exploring, a tick starts by refreshing the pose. *)
Lemma tick_head_refresh :
  forall e st,
    map_received st = true ->
    exploration_finished st = false ->
    hd_error (events_of (tick e st)) = Some (EvRefreshPose (pose_ok e)).
Proof.
  intros e st Hmr Hfin.
  destruct (pose_ok e) eqn:Hp; [| rewrite tick_pose_failure; auto].
  tick_cases e st; try discriminate; reflexivity.
Qed.

(** A pending bootstrap with a refreshed pose always enters [decideGoal]. *)
Lemma tick_bootstrap_scans :
  forall e st,
    map_received st = true ->
    exploration_finished st = false ->
    first_time st = true ->
    pose_ok e = true ->
    In EvScan (events_of (tick e st)).
Proof.
  intros e st Hmr Hfin Hft Hp.
  tick_cases e st; try discriminate; simpl; auto.
Qed.

(** The flags of the loop after a tick. *)
Lemma tick_flags :
  forall e st st' evs,
    tick e st = Ok st' evs ->
    exploration_finished st' = exploration_finished st
    /\ fmap st' = fmap st
    /\ (map_received st = true -> map_received st' = true)
    /\ (exploration_finished st = false -> ros_ok st' = ros_ok st).
Proof.
  intros e st st' evs H.
  tick_cases e st; inversion H; subst; cbn; repeat split; auto; discriminate.
Qed.

(** [first_time] after a tick: it is cleared exactly when [decideGoal] is
    entered, which needs a received map and a refreshed pose. *)
Lemma tick_first_time :
  forall e st st' evs,
    tick e st = Ok st' evs ->
    (first_time st' = true <-> first_time st = true /\ ~ In EvScan evs)
    /\ (In EvScan evs ->
        pose_ok e = true /\ hd_error evs = Some (EvRefreshPose true)).
Proof.
  intros e st st' evs H.
  tick_cases e st; inversion H; subst; cbn;
    intuition (try discriminate; in_events; try discriminate; simpl in *;
               intuition (try discriminate)).
Qed.

Lemma In_dec_scan : forall evs : list event, {In EvScan evs} + {~ In EvScan evs}.
Proof.
  induction evs as [|x evs IH]; [right; intros []|].
  destruct x; try (left; left; reflexivity);
    destruct IH as [Hi|Hn]; try (left; right; exact Hi);
    right; intros [Hx|Hx]; try discriminate; contradiction.
Qed.

(** Only [decideGoal()] leads to [robot.goTo], behind the guard
    [replaner.replan() || first_time]. *)
Lemma tick_goto_guard :
  forall e st g,
    In (EvGoTo g) (events_of (tick e st)) ->
    In EvScan (events_of (tick e st))
    /\ (replan_verdict e = true \/ first_time st = true).
Proof.
  intros e st g H.
  tick_cases e st; cbn in *; in_events; try discriminate;
    try solve [split; auto 10].
Qed.

Lemma spinOnce_flags :
  forall (e : env) (st : loop_state),
    first_time (spinOnce e st) = first_time st
    /\ exploration_finished (spinOnce e st) = exploration_finished st
    /\ ros_ok (spinOnce e st) = ros_ok st
    /\ (map_received st = true -> map_received (spinOnce e st) = true).
Proof.
  intros e [ft fin mr fm sel ok]; unfold spinOnce, getFrontiers; cbn.
  destruct ok, (map_update e); cbn; auto.
Qed.

Lemma step_events :
  forall e st, events_of (step e st) = events_of (tick e st).
Proof.
  intros e st; unfold step; destruct (tick e st); reflexivity.
Qed.

Lemma step_flags :
  forall e st st' evs,
    step e st = Ok st' evs ->
    exploration_finished st' = exploration_finished st
    /\ (map_received st = true -> map_received st' = true)
    /\ (exploration_finished st = false -> ros_ok st' = ros_ok st)
    /\ (first_time st' = true <-> first_time st = true /\ ~ In EvScan evs)
    /\ (In EvScan evs ->
        pose_ok e = true /\ hd_error evs = Some (EvRefreshPose true)).
Proof.
  intros e st st' evs H; unfold step in H.
  destruct (tick e st) as [s1 evs1|] eqn:Ht; [|discriminate].
  inversion H; subst.
  destruct (tick_flags e st s1 evs Ht) as [F1 [_ [F3 F4]]].
  destruct (tick_first_time e st s1 evs Ht) as [T1 T2].
  destruct (spinOnce_flags e s1) as [S1 [S2 [S3 S4]]].
  rewrite S1, S2, S3. repeat split; auto; try tauto.
Qed.

(** After a dispatch [first_time] is cleared. *)
Lemma step_goto_clears :
  forall e st st' evs g,
    step e st = Ok st' evs -> In (EvGoTo g) evs -> first_time st' = false.
Proof.
  intros e st st' evs g H Hg.
  destruct (step_flags e st st' evs H) as [_ [_ [_ [F _]]]].
  assert (Hs : In EvScan evs).
  { pose proof (step_events e st) as E; rewrite H in E; cbn in E.
    rewrite E in Hg |- *. exact (proj1 (tick_goto_guard e st g Hg)). }
  destruct (first_time st'); [|reflexivity].
  exfalso; apply (proj2 (proj1 F eq_refl)); exact Hs.
Qed.

(** Once [first_time] is cleared, every dispatch needs a positive
    replanning verdict on its tick. *)
Lemma run_goto_needs_replan :
  forall envs st j ej evj g,
    first_time st = false ->
    nth_error (fst (run envs st)) j = Some (ej, evj) ->
    In (EvGoTo g) evj ->
    replan_verdict ej = true.
Proof.
  induction envs as [|e es IH]; intros st j ej evj g Hft Hj Hg;
    cbn in Hj; [destruct j; discriminate|].
  destruct (ros_ok st); [|destruct j; discriminate].
  pose proof (step_events e st) as E.
  destruct (step e st) as [st' evs|evs] eqn:Hs.
  - destruct (run es st') as [log fin] eqn:Hr; cbn in Hj.
    destruct j as [|j].
    + inversion Hj; subst. cbn in E; rewrite E in Hg.
      destruct (proj2 (tick_goto_guard ej st g Hg)); congruence.
    + destruct (step_flags e st st' evs Hs) as [_ [_ [_ [F _]]]].
      apply (IH st' j ej evj g).
      * destruct (first_time st') eqn:Hf'; [|reflexivity].
        destruct (proj1 F eq_refl); congruence.
      * rewrite Hr; exact Hj.
      * exact Hg.
  - destruct j as [|[|j]]; cbn in Hj; try discriminate.
    inversion Hj; subst. cbn in E; rewrite E in Hg.
    destruct (proj2 (tick_goto_guard ej st g Hg)); congruence.
Qed.

(** [exploration_finished] is never assigned in [spin()]: a run that
    starts with it false keeps it false. *)
Lemma run_never_finishes :
  forall envs st st',
    exploration_finished st = false ->
    snd (run envs st) = Some st' ->
    exploration_finished st' = false.
Proof.
  induction envs as [|e es IH]; intros st st' Hfin Hr; cbn in Hr.
  - congruence.
  - destruct (ros_ok st); cbn in Hr; [|congruence].
    destruct (step e st) as [s1 evs|evs] eqn:Hs; cbn in Hr; [|discriminate].
    destruct (run es s1) as [log fin] eqn:Hr'; cbn in Hr.
    destruct (step_flags e st s1 evs Hs) as [F1 _].
    apply (IH s1 st'); [congruence | rewrite Hr'; exact Hr].
Qed.

(** A scan in which every frontier is rejected walks past the end of
    [fmap]: [decideGoal()] has no defined result. *)
Lemma decideGoal_all_rejected :
  forall st gs r,
    goal_selector st = Some gs ->
    reject_all gs (fmap st) default_pose = Some r ->
    decideGoal st = DGUndef (fmap st).
Proof.
  intros st gs r Hsel Hrej. unfold decideGoal. rewrite Hsel.
  rewrite (scan_all_rejected (fmap st) gs default_pose r Hrej).
  reflexivity.
Qed.

(** C2: while the loop is in Exploring (a map has been received and the
    exploration is not finished), every iteration starts by calling
    [robot.refreshPose()], whatever the collaborators answer and whether
    or not a new map arrives during the iteration. *)
Theorem refresh_pose_every_tick :
  forall envs st,
    map_received st = true ->
    exploration_finished st = false ->
    Forall (fun p => hd_error (snd p) = Some (EvRefreshPose (pose_ok (fst p))))
           (fst (run envs st)).
Proof.
  induction envs as [|e es IH]; intros st Hmr Hfin; cbn; [constructor|].
  destruct (ros_ok st); [|constructor].
  pose proof (tick_head_refresh e st Hmr Hfin) as Hh.
  rewrite <- step_events in Hh.
  destruct (step e st) as [s1 evs|evs] eqn:Hs.
  - destruct (run es s1) as [log fin] eqn:Hr; cbn.
    destruct (step_flags e st s1 evs Hs) as [F1 [F2 _]].
    constructor; [exact Hh|].
    change log with (fst (log, fin)); rewrite <- Hr.
    apply IH; [auto | congruence].
  - constructor; [exact Hh | constructor].
Qed.

(** C4: once the loop is in Finished ([exploration_finished] set, the map
    received), the next iteration calls [finish()]: it cancels the goal
    exactly once if the robot moves and not at all otherwise, dispatches
    nothing, and shuts ROS down, so no further iteration runs. *)
Theorem finished_is_terminal :
  forall e es st,
    ros_ok st = true ->
    map_received st = true ->
    exploration_finished st = true ->
    exists evs st',
      run (e :: es) st = ([(e, evs)], Some st')
      /\ ros_ok st' = false
      /\ (forall g, ~ In (EvGoTo g) evs)
      /\ count_cancel evs = (if is_moving e then 1 else 0).
Proof.
  intros e es [ft fin mr fm sel ok] Hok Hmr Hfin; cbn in *; subst.
  set (st' := mkState ft true true fm sel false).
  exists ((if is_moving e then [EvCancel] else []) ++ [EvShutdown]), st'.
  assert (Hstep : step e (mkState ft true true fm sel true)
                  = Ok st' ((if is_moving e then [EvCancel] else [])
                            ++ [EvShutdown])) by reflexivity.
  cbn [run]. rewrite Hstep.
  assert (Hr : run es st' = ([], Some st')) by (destruct es; reflexivity).
  rewrite Hr. repeat split.
  - intros g Hg. destruct (is_moving e); in_events; discriminate.
  - destruct (is_moving e); reflexivity.
Qed.

(** C5: on entering Exploring with the bootstrap pending, the first
    iteration whose pose refresh succeeds enters [decideGoal()], whatever
    the replanning verdicts, after any number of failed refreshes. *)
Theorem bootstrap_scan :
  forall pre e post st,
    ros_ok st = true ->
    map_received st = true ->
    exploration_finished st = false ->
    first_time st = true ->
    Forall (fun e' => pose_ok e' = false) pre ->
    pose_ok e = true ->
    exists evs,
      nth_error (fst (run (pre ++ e :: post) st)) (List.length pre) = Some (e, evs)
      /\ In EvScan evs.
Proof.
  induction pre as [|e0 pre IH];
    intros e post st Hok Hmr Hfin Hft Hpre Hp; cbn; rewrite Hok.
  - pose proof (tick_bootstrap_scans e st Hmr Hfin Hft Hp) as Hsc.
    rewrite <- step_events in Hsc.
    destruct (step e st) as [s1 evs|evs].
    + destruct (run post s1); exists evs; auto.
    + exists evs; auto.
  - inversion Hpre as [|x y Hp0 Hpre']; subst.
    assert (Hs : step e0 st
                 = Ok (spinOnce e0 st) [EvRefreshPose false; EvWarn])
      by (unfold step; rewrite tick_pose_failure; auto).
    rewrite Hs.
    destruct (spinOnce_flags e0 st) as [S1 [S2 [S3 S4]]].
    destruct (IH e post (spinOnce e0 st)) as [evs [H1 H2]];
      try congruence; auto.
    destruct (run (pre ++ e :: post) (spinOnce e0 st)) as [log fin].
    exists evs; auto.
Qed.

(** C9: [first_time] is cleared only by an iteration whose pose refresh
    succeeded and which entered [decideGoal()]; iterations without a
    successful refresh (failed refresh, no map yet) keep the bootstrap
    replan pending, however many of them there are. *)
Theorem bootstrap_flag_pending :
  (forall e st st' evs,
      step e st = Ok st' evs ->
      first_time st = true ->
      first_time st' = false ->
      pose_ok e = true /\ hd_error evs = Some (EvRefreshPose true)
      /\ In EvScan evs)
  /\ (forall envs st log st',
      first_time st = true ->
      run envs st = (log, Some st') ->
      Forall (fun p => ~ In (EvRefreshPose true) (snd p)) log ->
      first_time st' = true).
Proof.
  split.
  - intros e st st' evs Hs Hft Hft'.
    destruct (step_flags e st st' evs Hs) as [_ [_ [_ [F G]]]].
    assert (Hsc : In EvScan evs).
    { destruct (In_dec_scan evs) as [Hi|Hn]; [exact Hi|].
      rewrite (proj2 F (conj Hft Hn)) in Hft'; discriminate. }
    destruct (G Hsc); auto.
  - induction envs as [|e es IH]; intros st log st' Hft Hr Hall; cbn in Hr.
    + congruence.
    + destruct (ros_ok st); cbn in Hr; [|congruence].
      destruct (step e st) as [s1 evs|evs] eqn:Hs; [|discriminate].
      destruct (run es s1) as [log' fin] eqn:Hr'.
      inversion Hr; subst. inversion Hall as [|x y Hx Hall']; subst.
      destruct (step_flags e st s1 evs Hs) as [_ [_ [_ [F G]]]].
      apply (IH s1 log' st'); auto.
      apply (proj2 F); split; [exact Hft|].
      intro Hsc. destruct (G Hsc) as [_ Hh]. apply Hx.
      destruct evs; cbn in Hh; inversion Hh; left; reflexivity.
Qed.

(** C10: after a dispatch, every later dispatch of the same run happens
    on an iteration whose [replaner.replan()] answered true. *)
Theorem dispatch_after_first_needs_replan :
  forall envs st i j ei evi ej evj gi gj,
    nth_error (fst (run envs st)) i = Some (ei, evi) ->
    nth_error (fst (run envs st)) j = Some (ej, evj) ->
    i < j ->
    In (EvGoTo gi) evi ->
    In (EvGoTo gj) evj ->
    replan_verdict ej = true.
Proof.
  induction envs as [|e es IH];
    intros st i j ei evi ej evj gi gj Hi Hj Hij Hgi Hgj; cbn in Hi, Hj.
  - destruct i; discriminate.
  - destruct (ros_ok st); [|destruct i; discriminate].
    destruct (step e st) as [s1 evs|evs] eqn:Hs.
    + destruct (run es s1) as [log fin] eqn:Hr; cbn in Hi, Hj.
      destruct j as [|j]; [lia|].
      destruct i as [|i].
      * inversion Hi; subst.
        apply (run_goto_needs_replan es s1 j ej evj gj).
        -- exact (step_goto_clears ei st s1 evi gi Hs Hgi).
        -- rewrite Hr; exact Hj.
        -- exact Hgj.
      * apply (IH s1 i j ei evi ej evj gi gj); try (rewrite Hr; assumption).
        lia. exact Hgi. exact Hgj.
    + destruct j as [|[|j]]; cbn in Hj; try discriminate. lia.
Qed.

(** A scan with no accepted frontier means every frontier was rejected. *)
Lemma scan_ran_off_rejected :
  forall fs gs goal ev,
    scan gs fs goal = RanOffEnd ev -> exists r, reject_all gs fs goal = Some r.
Proof.
  induction fs as [|f fs IH]; intros gs goal ev H; cbn in *.
  - eexists; reflexivity.
  - destruct (decideGoal_gs gs f goal) as [[[|] goal'] gs'];
      [discriminate|].
    destruct (scan gs' fs goal') eqn:Hs; [discriminate|].
    exact (IH gs' goal' _ Hs).
Qed.

(** The scan evaluates a prefix of [fmap], in order: on acceptance the
    evaluated frontiers end with the accepted one, which belongs to [fmap];
    when it runs off the end, it has evaluated all of [fmap]. *)
Theorem scan_evaluates_prefix :
  forall gs fs goal,
    match scan gs fs goal with
    | Accepted ev f _ _ =>
        exists pre post, ev = pre ++ [f] /\ fs = pre ++ f :: post
    | RanOffEnd ev => ev = fs
    end.
Proof.
  intros gs fs; revert gs.
  induction fs as [|f fs IH]; intros gs goal; cbn; [reflexivity|].
  destruct (decideGoal_gs gs f goal) as [[[|] goal'] gs'].
  - exists [], fs; split; reflexivity.
  - specialize (IH gs' goal').
    destruct (scan gs' fs goal') as [ev f2 g gs2|ev].
    + destruct IH as [pre [post [E1 E2]]].
      exists (f :: pre), post; subst; split; reflexivity.
    + subst; reflexivity.
Qed.

(** [decideGoal()] has no defined result exactly when [goal_selector] is
    null or the strategy rejects every frontier of [fmap]. *)
Theorem decideGoal_undefined_iff :
  forall st,
    (exists ev, decideGoal st = DGUndef ev) <->
    goal_selector st = None
    \/ exists gs r, goal_selector st = Some gs
                   /\ reject_all gs (fmap st) default_pose = Some r.
Proof.
  intros st; unfold decideGoal; split.
  - intros [ev H]. destruct (goal_selector st) as [gs|]; [right|left; reflexivity].
    destruct (scan gs (fmap st) default_pose) as [ev' f g gs'|ev'] eqn:Hs;
      [discriminate|].
    destruct (scan_ran_off_rejected _ _ _ _ Hs) as [r Hr].
    exists gs, r; split; [reflexivity | exact Hr].
  - intros [Hn | [gs [r [Hg Hr]]]].
    + rewrite Hn; eexists; reflexivity.
    + rewrite Hg, (scan_all_rejected (fmap st) gs default_pose r Hr).
      eexists; reflexivity.
Qed.

(** An iteration issues at most one [robot.goTo], and it is its last
    effect. *)
Theorem tick_single_goto :
  forall e st g,
    In (EvGoTo g) (events_of (tick e st)) ->
    exists pre, events_of (tick e st) = pre ++ [EvGoTo g]
                /\ forall g', ~ In (EvGoTo g') pre.
Proof.
  intros e st g H.
  tick_cases e st; cbn in *; in_events; try discriminate;
    match goal with
    | H : EvGoTo ?a = EvGoTo g |- _ => injection H as ->
    end;
    match goal with
    | |- exists pre, ?a :: ?b :: ?c :: map EvDecide ?ev ++ [EvGoTo ?x] = _ /\ _ =>
        exists (a :: b :: c :: map EvDecide ev);
        split; [reflexivity | intros g' Hin; in_events]
    end.
Qed.

(** In Exploring, every iteration whose pose refresh succeeds consults
    [replaner.replan()] right after it, the bootstrap iteration included
    ([replaner.replan() || first_time] evaluates [replan()] first). *)
Theorem replan_consulted_after_refresh :
  forall e st,
    map_received st = true ->
    exploration_finished st = false ->
    pose_ok e = true ->
    nth_error (events_of (tick e st)) 1 = Some (EvReplan (replan_verdict e)).
Proof.
  intros e st Hmr Hfin Hp.
  tick_cases e st; try discriminate; reflexivity.
Qed.

(** Until a map has been received, iterations touch nothing: no robot or
    replanner call, no change of state. *)
Theorem waiting_for_map_is_idle :
  forall envs st,
    ros_ok st = true ->
    map_received st = false ->
    Forall (fun e => map_update e = None) envs ->
    run envs st = (map (fun e => (e, [])) envs, Some st).
Proof.
  induction envs as [|e es IH]; intros st Hok Hmr Hall; cbn; [reflexivity|].
  inversion Hall as [|x y Hu Hall']; subst.
  rewrite Hok.
  assert (Hs : step e st = Ok st []).
  { unfold step, tick, mapReceived. rewrite Hmr.
    unfold spinOnce. rewrite Hok, Hu. reflexivity. }
  rewrite Hs, (IH st Hok Hmr Hall'). reflexivity.
Qed.

(** While the exploration is not finished, the frontier set the loop holds
    is the one most recently delivered to [getFrontiers]: no iteration body
    modifies [fmap]. *)
Theorem fmap_is_last_delivered :
  forall envs st st',
    ros_ok st = true ->
    exploration_finished st = false ->
    snd (run envs st) = Some st' ->
    fmap st' = last_map envs (fmap st).
Proof.
  induction envs as [|e es IH]; intros st st' Hok Hfin Hr; cbn in *.
  - congruence.
  - rewrite Hok in Hr.
    destruct (step e st) as [s1 evs|evs] eqn:Hs; cbn in Hr; [|discriminate].
    destruct (run es s1) as [log fin] eqn:Hr'; cbn in Hr.
    unfold step in Hs.
    destruct (tick e st) as [s0 evs0|] eqn:Ht; [|discriminate].
    inversion Hs; subst.
    destruct (tick_flags e st s0 evs Ht) as [F1 [F2 [_ F4]]].
    destruct (spinOnce_flags e s0) as [S1 [S2 [S3 _]]].
    assert (Hok0 : ros_ok s0 = true) by (rewrite F4; auto).
    rewrite (IH (spinOnce e s0) st'); try congruence.
    + unfold last_map; cbn. f_equal.
      unfold spinOnce, getFrontiers. rewrite Hok0.
      destruct (map_update e); cbn; congruence.
    + rewrite Hr'; reflexivity.
Qed.

(** Once [first_time] is cleared it is never set again. *)
Theorem first_time_never_restored :
  forall envs st st',
    snd (run envs st) = Some st' ->
    first_time st' = true ->
    first_time st = true.
Proof.
  induction envs as [|e es IH]; intros st st' Hr Hft; cbn in Hr.
  - congruence.
  - destruct (ros_ok st); cbn in Hr; [|congruence].
    destruct (step e st) as [s1 evs|evs] eqn:Hs; cbn in Hr; [|discriminate].
    destruct (run es s1) as [log fin] eqn:Hr'; cbn in Hr.
    destruct (step_flags e st s1 evs Hs) as [_ [_ [_ [F _]]]].
    apply (proj1 (proj1 F (IH s1 st' ltac:(rewrite Hr'; exact Hr) Hft))).
Qed.

(** Without [exploration_finished], no iteration calls [finish()]. *)
Lemma run_never_calls_finish :
  forall envs st,
    exploration_finished st = false ->
    Forall (fun p => ~ In EvCancel (snd p) /\ ~ In EvShutdown (snd p))
           (fst (run envs st)).
Proof.
  induction envs as [|e es IH]; intros st Hfin; cbn; [constructor|].
  destruct (ros_ok st); [|constructor].
  assert (Ht : ~ In EvCancel (events_of (tick e st))
               /\ ~ In EvShutdown (events_of (tick e st))).
  { tick_cases e st; try discriminate; cbn;
      split; intro Hin; in_events; discriminate. }
  rewrite <- step_events in Ht.
  destruct (step e st) as [s1 evs|evs] eqn:Hs.
  - destruct (run es s1) as [log fin] eqn:Hr; cbn.
    constructor; [exact Ht|].
    change log with (fst (log, fin)); rewrite <- Hr.
    apply IH. destruct (step_flags e st s1 evs Hs) as [F1 _]; congruence.
  - constructor; [exact Ht | constructor].
Qed.

End Facts.


(** Registering the replanning causes: one [addCause] call per configured
    name, in the configured order and with duplicates kept (no name is
    checked here); a call carries parameters exactly when
    [getParam(name, parameters)] found them; no "conditions" parameter
    registers nothing. *)
Theorem setup_replaner_calls :
  forall conditions get_params,
    map cause_name (setup_replaner conditions get_params)
      = match conditions with Some l => l | None => [] end
    /\ Forall (fun c => match c with
                        | AddCauseParams n ps => get_params n = Some ps
                        | AddCause n => get_params n = None
                        end) (setup_replaner conditions get_params).
Proof.
  intros conditions get_params; unfold setup_replaner.
  generalize (match conditions with Some l => l | None => [] end) as l.
  induction l as [|name rest [IH1 IH2]]; cbn; [split; constructor|].
  destruct (get_params name) as [ps|] eqn:Hp; cbn; rewrite IH1;
    (split; [reflexivity | constructor; [exact Hp | exact IH2]]).
Qed.

(** [spin()] never reaches [finish()]: whatever the configuration and the
    collaborators answer, no iteration cancels a goal or shuts ROS down. *)
Theorem spin_never_finishes :
  forall (Frontier Pose GS : Type) (default_pose : Pose)
         (decideGoal_gs : GS -> Frontier -> Pose -> bool * Pose * GS)
         (mid : GS) param envs,
    Forall (fun p => ~ In EvCancel (snd p) /\ ~ In EvShutdown (snd p))
           (fst (snd (spin default_pose decideGoal_gs mid param envs))).
Proof.
  intros. unfold spin.
  destruct (select_goal_selector Frontier Pose mid param) as [sel errs].
  apply run_never_calls_finish; reflexivity.
Qed.

(** ** The loop on concrete inputs *)

Local Abbreviation dec2 := (Demo.decide (Demo.only 2)).
Local Abbreviation dec_all := (Demo.decide (fun _ => true)).

(** C1: when the strategy rejects every frontier, [decideGoal()] walks past
    the end of [fmap]: with an empty frontier set, and with frontiers
    [1; 3] that are both rejected, the bootstrap tick ends in undefined
    behaviour instead of a tick without dispatch. *)
Theorem no_accepted_goal_is_undefined :
  tick 0 dec2 (Demo.env_of true false false None) (Demo.exploring [])
    = Undef [EvRefreshPose true; EvReplan false; EvScan]
  /\ tick 0 dec2 (Demo.env_of true true false None) (Demo.exploring [1; 3])
    = Undef [EvRefreshPose true; EvReplan true; EvScan; EvDecide 1; EvDecide 3].
Proof. split; reflexivity. Qed.

(** C3: with an unknown goal-selector name [spin()] logs an error and still
    enters the loop; the first iteration after the map arrives reaches
    [decideGoal()] with a null [goal_selector]. *)
Theorem unknown_selector_enters_loop :
  let e1 := Demo.env_of false false false (Some [1]) in
  let e2 := Demo.env_of true false false None in
  spin 0 dec2 0 (Some "nearest"%string) [e1; e2]
    = ([EvError "String nearest does not name a valid goal selector"%string],
       ([(e1, []); (e2, [EvRefreshPose true; EvReplan false; EvScan])], None)).
Proof. reflexivity. Qed.

Lemma refresh_pose_every_tick_witness :
  let envs := [Demo.env_of false true false (Some [4]);
               Demo.env_of true false false None;
               Demo.env_of true true true (Some [])] in
  let st := Demo.exploring [1; 2; 3] in
  map_received st = true /\ exploration_finished st = false
  /\ Forall (fun p => hd_error (snd p) = Some (EvRefreshPose (pose_ok (fst p))))
           (fst (run 0 dec2 envs st)).
Proof.
  intros envs st. split; [reflexivity|split; [reflexivity|]].
  apply (refresh_pose_every_tick 0 dec2 envs st); reflexivity.
Defined.

Lemma finished_is_terminal_witness :
  let st := mkState false true true [1; 2] (Some 0) true in
  let e := Demo.env_of true true true None in
  exists evs st',
    run 0 dec2 [e; e] st = ([(e, evs)], Some st')
    /\ ros_ok st' = false
    /\ (forall g, ~ In (EvGoTo g) evs)
    /\ count_cancel evs = 1.
Proof.
  intros st e.
  apply (finished_is_terminal 0 dec2 e [e] st); reflexivity.
Defined.

Lemma bootstrap_scan_witness :
  let fail := Demo.env_of false false false (Some [2]) in
  let e := Demo.env_of true false false None in
  exists evs,
    nth_error (fst (run 0 dec2 ([fail; fail] ++ e :: []) (Demo.exploring [1])))
              2 = Some (e, evs)
    /\ In EvScan evs.
Proof.
  intros fail e.
  apply (bootstrap_scan 0 dec2 [fail; fail] e [] (Demo.exploring [1]));
    repeat constructor.
Defined.

Lemma decideGoal_first_accepted_witness :
  decideGoal 0 dec2 (Demo.exploring [1; 2; 3]) = DGGoal [1; 2] 2 20 2.
Proof.
  apply (decideGoal_first_accepted 0 dec2 (Demo.exploring [1; 2; 3]) 0
           [1] 2 [3] 0 1 20 2); reflexivity.
Defined.

Lemma tick_pose_failure_frame_witness :
  tick 0 dec2 (Demo.env_of false true true (Some [5])) (Demo.exploring [1; 2])
    = Ok (Demo.exploring [1; 2]) [EvRefreshPose false; EvWarn].
Proof.
  apply (tick_pose_failure_frame 0 dec2); reflexivity.
Defined.

Lemma decideGoal_deterministic_witness :
  decideGoal 0 dec2 (Demo.exploring [1; 2])
    = decideGoal 0 dec2 (mkState false false true [1; 2] (Some 0) false).
Proof.
  apply (decideGoal_deterministic 0 dec2); reflexivity.
Defined.

Lemma bootstrap_flag_pending_witness :
  let e := Demo.env_of true false false None in
  let st' := mkState false false true [1; 2] (Some 2) true in
  let evs := [EvRefreshPose true; EvReplan false; EvScan;
              EvDecide 1; EvDecide 2; EvGoTo 20] in
  (pose_ok e = true /\ hd_error evs = Some (EvRefreshPose true) /\ In EvScan evs)
  /\ first_time (mkState true false false ([] : list nat) (Some 0) true) = true.
Proof.
  intros e st' evs. split.
  - apply (proj1 (bootstrap_flag_pending 0 dec2) e (Demo.exploring [1; 2]) st' evs);
      reflexivity.
  - apply (proj2 (bootstrap_flag_pending 0 dec2)
             [Demo.env_of true true false None; Demo.env_of true true false None]
             (mkState true false false ([] : list nat) (Some 0) true)
             [(Demo.env_of true true false None, []);
              (Demo.env_of true true false None, [])]);
      [reflexivity | reflexivity | repeat constructor; intros []].
Defined.

Lemma dispatch_after_first_needs_replan_witness :
  let e := Demo.env_of true true false None in
  let log := fst (run 0 dec_all [e; e] (Demo.exploring [1; 2])) in
  nth_error log 0 = Some (e, [EvRefreshPose true; EvReplan true; EvScan;
                              EvDecide 1; EvGoTo 10])
  /\ nth_error log 1 = Some (e, [EvRefreshPose true; EvReplan true; EvScan;
                                EvDecide 1; EvGoTo 10])
  /\ replan_verdict e = true.
Proof.
  intros e log. split; [reflexivity|split; [reflexivity|]].
  apply (dispatch_after_first_needs_replan 0 dec_all [e; e] (Demo.exploring [1; 2])
           0 1 e [EvRefreshPose true; EvReplan true; EvScan; EvDecide 1; EvGoTo 10]
           e [EvRefreshPose true; EvReplan true; EvScan; EvDecide 1; EvGoTo 10]
           10 10); try reflexivity; try lia; simpl; auto 10.
Defined.

Lemma tick_single_goto_witness :
  events_of (tick 0 dec2 (Demo.env_of true true false None) (Demo.exploring [1; 2]))
    = [EvRefreshPose true; EvReplan true; EvScan; EvDecide 1; EvDecide 2]
      ++ [EvGoTo 20]
  /\ forall g', ~ In (EvGoTo g')
                   ([EvRefreshPose true; EvReplan true; EvScan; EvDecide 1;
                     EvDecide 2] : list (event nat nat)).
Proof.
  destruct (tick_single_goto 0 dec2 (Demo.env_of true true false None)
              (Demo.exploring [1; 2]) 20) as [pre [H1 H2]].
  - cbn; auto 10.
  - split; [reflexivity|].
    intros g' Hin. cbn in Hin.
    repeat (destruct Hin as [Hin|Hin]; [discriminate|]); exact Hin.
Defined.

Lemma replan_consulted_after_refresh_witness :
  nth_error (events_of (tick 0 dec2 (Demo.env_of true false false None)
                          (Demo.exploring [2]))) 1
    = Some (EvReplan false).
Proof.
  apply (replan_consulted_after_refresh 0 dec2 (Demo.env_of true false false None)
           (Demo.exploring [2])); reflexivity.
Defined.

Lemma waiting_for_map_is_idle_witness :
  let st := mkState true false false ([] : list nat) (Some 0) true in
  let e := Demo.env_of true true true None in
  run 0 dec2 [e; e] st = ([(e, []); (e, [])], Some st).
Proof.
  intros st e.
  apply (waiting_for_map_is_idle 0 dec2 [e; e] st); repeat constructor.
Defined.

Lemma fmap_is_last_delivered_witness :
  let envs := [Demo.env_of false false false (Some [7]);
               Demo.env_of true false false (Some [8; 9]);
               Demo.env_of false false false None] in
  fmap (mkState false false true [8; 9] (Some 1) true) = last_map envs [1].
Proof.
  intros envs.
  apply (fmap_is_last_delivered 0 dec_all envs (Demo.exploring [1])); reflexivity.
Defined.

Lemma first_time_never_restored_witness :
  first_time (Demo.exploring [1]) = true.
Proof.
  apply (first_time_never_restored 0 dec2 [Demo.env_of false false false None]
           (Demo.exploring [1]) (Demo.exploring [1])); reflexivity.
Defined.

